(** * wyoming-onnx-asr: the session handler [NemoAsrEventHandler]

    A shallow embedding of [src/wyoming_onnx_asr/handler.py] (the per
    connection event handler), of [main] in
    [src/wyoming_onnx_asr/__main__.py], and of the client tools.

    - The [models] dict is an association list: Python dicts keep insertion
      order, and [list(self.models.keys())] shows up in an error message.
    - Audio bytes are [Z] values in [0, 256); decoded samples are the
      [float32] values [soundfile] and [numpy] compute, represented exactly
      as rationals [Q] and rounded by [f32] after every operation.
    - The wave writer's header limits ([struct.pack] fields) and
      libsndfile's refusal of some files at [sf.read] are modelled as the
      exceptions they raise.
    - A recognizer ([AsrAdapter.recognize]) is a function returning either
      the message of the exception it raises ([inl]) or the text ([inr]).
    - [handle_event] returns either [Raised] (the Python exception escaping
      the coroutine, with the effects performed before it) or [Returned]
      with the new handler state, the effects, and the boolean it returns. *)

From Stdlib Require Import String Ascii List ZArith QArith Bool Lia Lqa.
Import ListNotations.

Open Scope string_scope.

(** ** Python values used by the handler *)

(** Truthiness of an [Optional[str]]: [None] and [""] are falsy. *)
Definition py_truthy_str (s : option string) : bool :=
  match s with
  | None => false
  | Some EmptyString => false
  | Some _ => true
  end.

(** [x or d] for [x : Optional[str]], [d : str]. *)
Definition py_or_str (x : option string) (d : string) : string :=
  match x with
  | Some s => if py_truthy_str x then s else d
  | None => d
  end.

Definition char_sq : ascii := "039"%char.  (* ' *)
Definition char_dq : ascii := "034"%char.  (* double quote *)
Definition char_bs : ascii := "092"%char.  (* backslash *)

Definition str_has_char (c : ascii) (s : string) : bool :=
  existsb (fun d => Ascii.eqb c d) (list_ascii_of_string s).

Definition hex_digit (n : nat) : ascii :=
  ascii_of_nat (if Nat.ltb n 10 then 48 + n else 87 + n).

(** Escaping done by [repr] on a [str] delimited by [q]: backslash, the
    delimiter, [\n], [\r], [\t] and the other control characters. *)
Definition py_escape_char (q c : ascii) : string :=
  let n := nat_of_ascii c in
  if Ascii.eqb c char_bs then String char_bs (String char_bs EmptyString)
  else if Ascii.eqb c q then String char_bs (String q EmptyString)
  else if Nat.eqb n 10 then String char_bs "n"
  else if Nat.eqb n 13 then String char_bs "r"
  else if Nat.eqb n 9 then String char_bs "t"
  else if Nat.ltb n 32 || Nat.eqb n 127 then
    String char_bs (String "x" (String (hex_digit (n / 16))
                                  (String (hex_digit (n mod 16)) EmptyString)))
  else String c EmptyString.

Fixpoint py_escape (q : ascii) (s : string) : string :=
  match s with
  | EmptyString => EmptyString
  | String c s' => py_escape_char q c ++ py_escape q s'
  end.

(** [repr(s)] for a [str]: single quotes, unless [s] contains a single quote
    and no double quote. *)
Definition py_repr_str (s : string) : string :=
  let q := if str_has_char char_sq s && negb (str_has_char char_dq s)
           then char_dq else char_sq in
  String q (py_escape q s ++ String q EmptyString).

(** [str(l)] for a [list[str]]: [['en', 'multi']]. *)
Definition py_str_list (l : list string) : string :=
  "[" ++ String.concat ", " (map py_repr_str l) ++ "]".

(** [str(x)] for an [Optional[str]] in [%s] formatting. *)
Definition py_str_opt (x : option string) : string :=
  match x with None => "None" | Some s => s end.

(** ** The dict [self.models : dict[str, AsrAdapter]] *)

Record asr_adapter := mkAdapter {
  (** [recognize(waveform, language=..., sample_rate=...)]: [inl msg] when
      it raises an exception whose [str] is [msg], [inr text] otherwise. *)
  recognize : list Q -> string -> Z -> string + string
}.

Definition model_dict := list (string * asr_adapter).

(** [d[k]] / [k in d]: the entry of key [k]. *)
Fixpoint dict_get (k : string) (d : model_dict) : option asr_adapter :=
  match d with
  | [] => None
  | (k', v) :: d' => if String.eqb k k' then Some v else dict_get k d'
  end.

(** [k in d]. *)
Definition dict_contains (k : string) (d : model_dict) : bool :=
  match dict_get k d with Some _ => true | None => false end.

Definition dict_keys (d : model_dict) : list string := map fst d.

(** ** Wyoming events *)

Record audio_chunk := mkChunk {
  chunk_rate : Z;
  chunk_width : Z;
  chunk_channels : Z;
  chunk_audio : list Z
}.

(** Inbound events, by their [type]. *)
Inductive event :=
| EvAudioChunk (c : audio_chunk)
| EvAudioStop
| EvTranscribe (language : option string)
| EvDescribe
| EvOther (type_ : string).

(** Outbound events written with [write_event]. *)
Inductive out_event :=
| Transcript (text : string)
| InfoEvent.

(** Observable effects of one [handle_event] call. *)
Inductive effect :=
| WriteEvent (e : out_event)
| LogDebug (msg : string)
| LockAcquire
| LockRelease
| CallRecognize (tag : string) (waveform : list Q) (language : string)
    (sample_rate : Z).

Inductive py_exc :=
| AssertionError
| WaveError (msg : string)
| StructError
| SoundFileError.

(** ** The WAV buffer: [wave.open(self._wav_path, "wb")] and [sf.read] *)

Record wav_writer := mkWav {
  ww_rate : Z;
  ww_width : Z;
  ww_channels : Z;
  ww_data : list Z
}.

(** [wave.open(..., "wb")] followed by [setframerate], [setsampwidth],
    [setnchannels]: the [wave] module refuses a rate [<= 0], a sample width
    outside [1..4] and fewer than one channel. *)
Definition wave_open (rate width channels : Z) : py_exc + wav_writer :=
  if (rate <=? 0)%Z then inl (WaveError "bad frame rate")
  else if (width <? 1)%Z || (4 <? width)%Z then inl (WaveError "bad sample width")
  else if (channels <? 1)%Z then inl (WaveError "bad # of channels")
  else inr (mkWav rate width channels []).

(** The ranges of [struct.pack]'s ['<H'] and ['<L'] fields. *)
Definition u16_ok (x : Z) : bool := (0 <=? x)%Z && (x <? 2 ^ 16)%Z.
Definition u32_ok (x : Z) : bool := (0 <=? x)%Z && (x <? 2 ^ 32)%Z.

(** The format fields of [Wave_write._write_header]'s
    [struct.pack('<L4s4sLHHLLHH4s', ...)]: [nchannels] ['H'], [framerate]
    ['L'], the byte rate [nchannels * framerate * sampwidth] ['L'], the block
    align [nchannels * sampwidth] ['H'], [sampwidth * 8] ['H']. *)
Definition header_fields_ok (rate width channels : Z) : bool :=
  u16_ok channels && u32_ok rate && u32_ok (channels * rate * width)
  && u16_ok (channels * width) && u16_ok (width * 8).

(** [_write_header(initlength)]: the header also packs [36 + datalength]
    and [datalength] as ['L']; [struct.error] when a value is out of range. *)
Definition header_ok (rate width channels datalength : Z) : bool :=
  u32_ok (36 + datalength) && header_fields_ok rate width channels
  && u32_ok datalength.

(** [_patchheader()]: packs [36 + datawritten] and [datawritten] as ['L']. *)
Definition patch_ok (datawritten : Z) : bool :=
  u32_ok (36 + datawritten) && u32_ok datawritten.

(** The audio appended to the file. *)
Definition wav_append (w : wav_writer) (audio : list Z) : wav_writer :=
  mkWav (ww_rate w) (ww_width w) (ww_channels w) (ww_data w ++ audio).

(** The first [writeframes(data)] of a fresh writer: [_ensure_header_written]
    writes the header with [datalength = (len(data) // (nchannels *
    sampwidth)) * nchannels * sampwidth], the data is written, and
    [_patchheader] runs when [datalength != datawritten]. *)
Definition writeframes_first (w : wav_writer) (audio : list Z) : py_exc + wav_writer :=
  let datawritten := Z.of_nat (length audio) in
  let block_align := (ww_channels w * ww_width w)%Z in
  let datalength := (datawritten / block_align * block_align)%Z in
  if negb (header_ok (ww_rate w) (ww_width w) (ww_channels w) datalength)
  then inl StructError
  else if (datalength =? datawritten)%Z then inr (wav_append w audio)
  else if patch_ok datawritten then inr (wav_append w audio)
  else inl StructError.

(** A later [writeframes(data)]: the header is written and, after the
    previous call, [datalength] equals the bytes written so far; the header
    is patched when [data] is not empty. *)
Definition writeframes (w : wav_writer) (audio : list Z) : py_exc + wav_writer :=
  let datalength := Z.of_nat (length (ww_data w)) in
  let datawritten := Z.of_nat (length (ww_data w ++ audio)) in
  if (datalength =? datawritten)%Z then inr (wav_append w audio)
  else if patch_ok datawritten then inr (wav_append w audio)
  else inl StructError.

(** Split into consecutive blocks of [n] items, dropping an incomplete tail
    (the reader sees [len(data) // block_align] frames). *)
Fixpoint chunks_aux (fuel n : nat) (l : list Z) : list (list Z) :=
  match fuel with
  | O => []
  | S fuel' =>
      if Nat.ltb (length l) n then []
      else firstn n l :: chunks_aux fuel' n (skipn n l)
  end.

Definition chunks (n : nat) (l : list Z) : list (list Z) :=
  if Nat.eqb n 0 then [] else chunks_aux (length l) n l.

(** Little-endian unsigned value of a sample's bytes. *)
Fixpoint le_unsigned (bs : list Z) : Z :=
  match bs with
  | [] => 0%Z
  | b :: bs' => (b + 256 * le_unsigned bs')%Z
  end.

(** *** [float32] arithmetic *)

(** [num / den] rounded to an integer, ties to even ([num >= 0], [den > 0]). *)
Definition round_half_even (num den : Z) : Z :=
  let k := (num / den)%Z in
  let r := (num mod den)%Z in
  if (2 * r <? den)%Z then k
  else if (den <? 2 * r)%Z then (k + 1)%Z
  else if Z.even k then k else (k + 1)%Z.

(** The [float32] nearest to [x] (IEEE round to nearest, ties to even): a
    24-bit significand, with the subnormal spacing [2^-149] as the finest
    step. Infinities are not modelled: every value rounded here is at most
    [2^31] in magnitude. *)
Definition f32 (x : Q) : Q :=
  let a := Z.abs (Qnum x) in
  let d := Zpos (Qden x) in
  if (a =? 0)%Z then 0%Q
  else
    (* [2^22 < a / (d * 2^e0) < 2^24] *)
    let e0 := (Z.log2 a - Z.log2 d - 23)%Z in
    let below :=
      if (0 <=? e0)%Z then (a <? 2 ^ 23 * (d * 2 ^ e0))%Z
      else (a * 2 ^ (- e0) <? 2 ^ 23 * d)%Z in
    let e := Z.max (if below then e0 - 1 else e0)%Z (-149)%Z in
    let k := if (0 <=? e)%Z then round_half_even a (d * 2 ^ e)
             else round_half_even (a * 2 ^ (- e)) d in
    let m := (Z.sgn (Qnum x) * k)%Z in
    if (0 <=? e)%Z then inject_Z (m * 2 ^ e) else Qmake m (Z.to_pos (2 ^ (- e))).

(** [soundfile]'s [dtype="float32"] read of one PCM sample, as libsndfile
    converts it: [((float) value) * normfact] with [normfact =
    1.0 / 2^(8 * width - 1)]; 8-bit WAV is unsigned with offset 128, wider
    samples are signed little-endian. (libsndfile shifts a 24-bit sample
    into the top of an [int] and scales by [2^-31]; the product is the same
    exact value.) *)
Definition decode_sample (width : Z) (bs : list Z) : Q :=
  let v := if (width =? 1)%Z then (hd 0 bs - 128)%Z
           else let u := le_unsigned bs in
                if (2 ^ (8 * width - 1) <=? u)%Z then (u - 2 ^ (8 * width))%Z else u in
  f32 (f32 (inject_Z v) * Qmake 1 (Z.to_pos (2 ^ (8 * width - 1)))).

Definition decode_frame (width : Z) (frame : list Z) : list Q :=
  map (decode_sample width) (chunks (Z.to_nat width) frame).

(** The frames of the file, one row of samples per frame. *)
Definition wav_frames (w : wav_writer) : list (list Q) :=
  map (decode_frame (ww_width w))
      (chunks (Z.to_nat (ww_width w * ww_channels w)) (ww_data w)).

(** What [sf.read(path, dtype="float32")] returns when it opens the file: a
    1-D array for a mono file, a 2-D array (frames x channels) otherwise. *)
Inductive sf_array :=
| Arr1 (xs : list Q)
| Arr2 (rows : list (list Q)).

Definition sf_decode (w : wav_writer) : sf_array * Z :=
  let rows := wav_frames w in
  if (ww_channels w =? 1)%Z then (Arr1 (map (hd 0%Q) rows), ww_rate w)
  else (Arr2 rows, ww_rate w).

(** The sample rate field, read by libsndfile into a C [int]. *)
Definition c_int32 (x : Z) : Z := if (2 ^ 31 <=? x)%Z then (x - 2 ^ 32)%Z else x.

Definition SF_MAX_CHANNELS : Z := 1024.

(** libsndfile's [validate_sfinfo] when opening a file for reading: a sample
    rate of at least 1 and between 1 and [SF_MAX_CHANNELS] channels. *)
Definition sf_open_ok (w : wav_writer) : bool :=
  (1 <=? c_int32 (ww_rate w))%Z && (1 <=? ww_channels w)%Z
  && (ww_channels w <=? SF_MAX_CHANNELS)%Z.

(** [sf.read(path, dtype="float32")]: [soundfile] raises when libsndfile
    refuses to open the file. *)
Definition sf_read (w : wav_writer) : py_exc + (sf_array * Z) :=
  if sf_open_ok w then inr (sf_decode w) else inl SoundFileError.

(** numpy's pairwise summation ([pairwise_sum] of [loops_utils.h]) in
    [float32]: a plain loop below 8 items, eight accumulators up to 128
    items, halving (at a multiple of 8) above. *)
Fixpoint blocks8 (fuel : nat) (l : list Q) : list (list Q) :=
  match fuel, l with
  | O, _ => []
  | _, [] => []
  | S fuel', _ => firstn 8 l :: blocks8 fuel' (skipn 8 l)
  end.

Definition f32_sum_loop (res : Q) (l : list Q) : Q :=
  fold_left (fun acc x => f32 (acc + x)) l res.

Definition combine8 (r : list Q) : Q :=
  match r with
  | [r0; r1; r2; r3; r4; r5; r6; r7] =>
      f32 (f32 (f32 (r0 + r1) + f32 (r2 + r3)) + f32 (f32 (r4 + r5) + f32 (r6 + r7)))
  | _ => 0
  end.

Fixpoint pairwise_sum (fuel : nat) (a : list Q) : Q :=
  match fuel with
  | O => 0
  | S fuel' =>
      let n := length a in
      if Nat.ltb n 8 then f32_sum_loop 0 a
      else if Nat.leb n 128 then
        let full := (n - n mod 8)%nat in
        let r := fold_left (fun r blk => map (fun '(x, y) => f32 (x + y)) (combine r blk))
                   (blocks8 full (skipn 8 (firstn full a))) (firstn 8 a) in
        f32_sum_loop (combine8 r) (skipn full a)
      else
        let n2 := (n / 2 - (n / 2) mod 8)%nat in
        f32 (pairwise_sum fuel' (firstn n2 a) + pairwise_sum fuel' (skipn n2 a))
  end.

(** [np.mean(row)] of a [float32] row: [add.reduce] into an output that
    starts at 0, then [true_divide] by the count, both in [float32]. *)
Definition np_mean (row : list Q) : Q :=
  f32 (f32 (0 + pairwise_sum (length row) row) / inject_Z (Z.of_nat (length row))).

(** Lines 69-71 after [sf.read]: [if len(waveform.shape) > 1: waveform =
    np.mean(waveform, axis=1)]. *)
Definition to_mono (r : sf_array * Z) : list Q * Z :=
  match r with
  | (Arr1 xs, sample_rate) => (xs, sample_rate)
  | (Arr2 rows, sample_rate) => (map np_mean rows, sample_rate)
  end.

(** The mono waveform and sample rate of a file libsndfile opens. *)
Definition read_mono (w : wav_writer) : list Q * Z := to_mono (sf_decode w).

(** ** The handler *)

Record handler := mkHandler {
  models : model_dict;
  initial_prompt : option string;
  request_language : option string;
  wav_file : option wav_writer
}.

Definition set_request_language (st : handler) (l : option string) : handler :=
  mkHandler (models st) (initial_prompt st) l (wav_file st).

Definition set_wav_file (st : handler) (w : option wav_writer) : handler :=
  mkHandler (models st) (initial_prompt st) (request_language st) w.

(** [NemoAsrEventHandler.__init__]: nothing requested, no buffer open. *)
Definition new_handler (ms : model_dict) (prompt : option string) : handler :=
  mkHandler ms prompt None None.

Inductive outcome :=
| Raised (fx : list effect) (e : py_exc)
| Returned (st : handler) (fx : list effect) (keep_going : bool).

(** Lines 74-82: the model selection. *)
Definition select_model (ms : model_dict) (lang : string)
  : option (string * asr_adapter) :=
  if String.eqb lang "en" && dict_contains "en" ms then
    option_map (pair "en") (dict_get "en" ms)
  else if dict_contains "multi" ms then
    option_map (pair "multi") (dict_get "multi" ms)
  else if dict_contains "en" ms then
    option_map (pair "en") (dict_get "en" ms)
  else None.

(** Lines 85-94: the message of a resolution failure. *)
Definition resolution_error_msg (st : handler) : string :=
  if py_truthy_str (request_language st) then
    "Language '" ++ py_str_opt (request_language st)
      ++ "' is not supported. Available models: "
      ++ py_str_list (dict_keys (models st))
  else "No ASR model is available for transcription".

Definition stop_log (st : handler) : effect :=
  LogDebug ("Audio stopped. Transcribing with initial prompt="
              ++ py_str_opt (initial_prompt st)).

(** Lines 58-121: [AudioStop]. [close()] only flushes: the header was
    written and patched by the [writeframes] calls. *)
Definition handle_audio_stop (st : handler) : outcome :=
  match wav_file st with
  | None => Raised [stop_log st] AssertionError
  | Some w =>
      let st1 := set_wav_file st None in
      match sf_read w with
      | inl e => Raised [stop_log st] e
      | inr arr =>
      let '(waveform, sample_rate) := to_mono arr in
      let lang := py_or_str (request_language st1) "en" in
      match select_model (models st1) lang with
      | None =>
          Returned st1
            [stop_log st; WriteEvent (Transcript ("ERROR: " ++ resolution_error_msg st1))]
            false
      | Some (tag, model) =>
          match recognize model waveform lang sample_rate with
          | inl e =>
              Returned st1
                [stop_log st; LockAcquire; CallRecognize tag waveform lang sample_rate;
                 WriteEvent (Transcript ("ERROR: " ++ ("Transcription failed: " ++ e)));
                 LockRelease]
                false
          | inr text =>
              Returned (set_request_language st1 None)
                [stop_log st; LockAcquire; CallRecognize tag waveform lang sample_rate;
                 LockRelease; WriteEvent (Transcript text)]
                false
          end
      end
      end
  end.

(** Lines 46-56: [AudioChunk]. A new buffer is [wave.open] with the
    [set*] calls, then the first [writeframes] writes the header. *)
Definition handle_audio_chunk (st : handler) (c : audio_chunk) : outcome :=
  match wav_file st with
  | Some w =>
      match writeframes w (chunk_audio c) with
      | inl e => Raised [] e
      | inr w' => Returned (set_wav_file st (Some w')) [] true
      end
  | None =>
      match wave_open (chunk_rate c) (chunk_width c) (chunk_channels c) with
      | inl e => Raised [] e
      | inr w =>
          match writeframes_first w (chunk_audio c) with
          | inl e => Raised [] e
          | inr w' => Returned (set_wav_file st (Some w')) [] true
          end
      end
  end.

(** [NemoAsrEventHandler.handle_event]. *)
Definition handle_event (st : handler) (ev : event) : outcome :=
  match ev with
  | EvAudioChunk c => handle_audio_chunk st c
  | EvAudioStop => handle_audio_stop st
  | EvTranscribe language => Returned (set_request_language st language) [] true
  | EvDescribe => Returned st [WriteEvent InfoEvent] true
  | EvOther _ => Returned st [] true
  end.

(** The loop of Wyoming's [AsyncEventHandler.run] around [handle_event]:
    it reads events until [handle_event] returns [False] (then the
    connection is closed) or raises. *)
Inductive run_end :=
| Open (st : handler)
| Closed (st : handler)
| Crashed (e : py_exc).

Fixpoint run (st : handler) (evs : list event) : list effect * run_end :=
  match evs with
  | [] => ([], Open st)
  | ev :: evs' =>
      match handle_event st ev with
      | Raised fx e => (fx, Crashed e)
      | Returned st' fx false => (fx, Closed st')
      | Returned st' fx true =>
          let '(fx', r) := run st' evs' in ((fx ++ fx')%list, r)
      end
  end.

(** The events written to the client. *)
Definition written (fx : list effect) : list out_event :=
  flat_map (fun f => match f with WriteEvent e => [e] | _ => [] end) fx.

Definition is_transcript (e : out_event) : bool :=
  match e with Transcript _ => true | InfoEvent => false end.

Definition transcripts_written (fx : list effect) : nat :=
  length (filter is_transcript (written fx)).

(** The effective language of the next [AudioStop]. *)
Definition stop_language (st : handler) : string :=
  py_or_str (request_language st) "en".

(** The [model_lock] protocol seen in the effects of one call: acquire and
    release alternate, [recognize] runs only while the lock is held, and the
    lock is free at the end. *)
Fixpoint lock_trace_ok (held : bool) (fx : list effect) : bool :=
  match fx with
  | [] => negb held
  | LockAcquire :: fx' => negb held && lock_trace_ok true fx'
  | LockRelease :: fx' => held && lock_trace_ok false fx'
  | CallRecognize _ _ _ _ :: fx' => held && lock_trace_ok held fx'
  | _ :: fx' => lock_trace_ok held fx'
  end.

(** Substrings. *)
Definition str_contains (needle hay : string) : Prop :=
  exists p s, hay = p ++ needle ++ s.

Fixpoint str_containsb (needle hay : string) : bool :=
  prefix needle hay ||
  match hay with
  | EmptyString => false
  | String _ hay' => str_containsb needle hay'
  end.

(** ** Concrete sessions used as examples *)

(** A recognizer that always returns [text]. *)
Definition text_adapter (text : string) : asr_adapter :=
  mkAdapter (fun _ _ _ => inr text).

(** A recognizer that always raises an exception with message [msg]. *)
Definition failing_adapter (msg : string) : asr_adapter :=
  mkAdapter (fun _ _ _ => inl msg).

(** Two frames of 16-bit mono PCM at 16 kHz. *)
Definition example_chunk : audio_chunk := mkChunk 16000 2 1 [0; 1; 0; 2]%Z.

(** The buffer after [example_chunk]. *)
Definition example_buffer : wav_writer := mkWav 16000 2 1 [0; 1; 0; 2]%Z.

(** A session with backends [ms], pending language [rl], and one chunk
    buffered. *)
Definition example_session (ms : model_dict) (rl : option string) : handler :=
  mkHandler ms None rl (Some example_buffer).


(** The same session with another [initial_prompt]. *)
Definition with_prompt (st : handler) (p : option string) : handler :=
  mkHandler (models st) p (request_language st) (wav_file st).

(** ** Sessions and the model lock *)

(** Several sessions ([NemoAsrEventHandler] instances, one per connection)
    interleaving their [AudioStop] handling. [main] creates one
    [asyncio.Lock()] and hands the same object to every handler through
    [partial(NemoAsrEventHandler, wyoming_info, models, model_lock)];
    [handle_event] enters [async with self.model_lock] whatever backend it
    selected. A session around its [recognize] call is [Idle], [Waiting]
    at [async with] for the backend [tag] it selected, or [Recognizing]
    inside it (the [LockAcquire]/[CallRecognize]/[LockRelease] effects of
    [handle_audio_stop]). *)
Module Sessions.

Local Open Scope nat_scope.

Inductive pc :=
| Idle
| Waiting (tag : string)
| Recognizing (tag : string).

(** The lock guarding the backend [tag]: the single [model_lock]. *)
Definition lock_for (tag : string) : nat := 0.

Record world := mkWorld {
  pcs : nat -> pc;                (** session id -> where it is *)
  owner : nat -> option nat       (** lock id -> session holding it *)
}.

Definition init : world := mkWorld (fun _ => Idle) (fun _ => None).

Definition upd {A} (f : nat -> A) (i : nat) (x : A) : nat -> A :=
  fun j => if Nat.eqb j i then x else f j.

Inductive step : world -> world -> Prop :=
| step_select (s : world) (i : nat) (tag : string) :
    pcs s i = Idle ->
    step s (mkWorld (upd (pcs s) i (Waiting tag)) (owner s))
| step_acquire (s : world) (i : nat) (tag : string) :
    pcs s i = Waiting tag ->
    owner s (lock_for tag) = None ->
    step s (mkWorld (upd (pcs s) i (Recognizing tag))
                    (upd (owner s) (lock_for tag) (Some i)))
| step_release (s : world) (i : nat) (tag : string) :
    pcs s i = Recognizing tag ->
    step s (mkWorld (upd (pcs s) i Idle) (upd (owner s) (lock_for tag) None)).

Inductive reachable : world -> Prop :=
| reach_init : reachable init
| reach_step (s s' : world) : reachable s -> step s s' -> reachable s'.

(** Who holds a lock is exactly who is inside [recognize] under it. *)
Definition lock_inv (s : world) : Prop :=
  (forall i t, pcs s i = Recognizing t -> owner s (lock_for t) = Some i) /\
  (forall l i, owner s l = Some i -> exists t, pcs s i = Recognizing t /\ lock_for t = l).

(** Session 0 selects ["en"] and enters the lock. *)
Definition one_inside : world :=
  mkWorld (upd (upd (pcs init) 0 (Waiting "en")) 0 (Recognizing "en"))
          (upd (owner init) (lock_for "en") (Some 0)).

End Sessions.

(** ** Startup: [main] of [src/wyoming_onnx_asr/__main__.py] *)




(** Wyoming's [Attribution] dataclass: both fields are required. *)
Record attribution := mkAttribution {
  attr_name : string;
  attr_url : string
}.


(** [AsrModel] and [AsrProgram] of the [Info] event. *)
Record asr_model_info := mkAsrModel {
  am_name : string;
  am_description : string;
  am_attribution : attribution;
  am_languages : list string
}.

Record asr_program_info := mkAsrProgram {
  ap_name : string;
  ap_description : string;
  ap_attribution : attribution;
  ap_models : list asr_model_info
}.










(** ** The client tools: [src/tools/asr_client.py] and
    [src/tools/WyomingASRBenchmark.py] *)

Definition SAMPLES_PER_CHUNK : nat := 1024.

(** Consecutive blocks of [n] items, the last one possibly shorter. *)
Fixpoint split_blocks_aux (fuel n : nat) (l : list Z) : list (list Z) :=
  match fuel, l with
  | O, _ => []
  | _, [] => []
  | S fuel', _ => firstn n l :: split_blocks_aux fuel' n (skipn n l)
  end.

Definition split_blocks (n : nat) (l : list Z) : list (list Z) :=
  split_blocks_aux (length l) n l.

(** Wyoming's [wav_to_chunks(wav_file, samples_per_chunk)]: [readframes]
    blocks of [samples_per_chunk] frames until it returns nothing, each sent
    with the file's format. The file is a [wav_writer] whose data holds whole
    frames. *)
Definition wav_to_chunks (w : wav_writer) (spc : nat) : list audio_chunk :=
  map (mkChunk (ww_rate w) (ww_width w) (ww_channels w))
      (split_blocks (spc * Z.to_nat (ww_width w * ww_channels w)) (ww_data w)).

(** The events [transcribe_wav] sends: [Transcribe] (with [language] in
    [asr_client.py], with only [name] in the benchmark, so [language] is
    [None] there), [AudioStart], the chunks, [AudioStop]. *)
Definition client_events (language : option string) (w : wav_writer) : list event :=
  EvTranscribe language :: EvOther "audio-start"
    :: app (map EvAudioChunk (wav_to_chunks w SAMPLES_PER_CHUNK)) [EvAudioStop].

(** The read loop of [transcribe_wav]: the text of the first [Transcript];
    [RuntimeError("No transcription received")] when the server closes the
    connection first. *)
Fixpoint client_read (outs : list out_event) : string + string :=
  match outs with
  | [] => inl "No transcription received"
  | Transcript text :: _ => inr text
  | InfoEvent :: outs' => client_read outs'
  end.

(** [transcribe_wav] against a fresh server session: the server handles the
    events, then the client reads what the server wrote before closing. *)
Definition transcribe_wav (ms : model_dict) (prompt : option string)
    (language : option string) (w : wav_writer) : string + string :=
  client_read (written (fst (run (new_handler ms prompt) (client_events language w)))).

(** [get_available_models]: the reply to [Describe] ([None] when there is
    none or it is not an [Info]); the model names of its first ASR program. *)
Definition get_available_models (reply : option (list asr_program_info)) : list string :=
  match reply with
  | Some (p :: _) =>
      match ap_models p with
      | [] => []
      | mods => map am_name mods
      end
  | _ => []
  end.

(** A [recognize] call among the effects. *)
Definition is_recognize_call (f : effect) : bool :=
  match f with CallRecognize _ _ _ _ => true | _ => false end.

(** Inbound events other than [Describe] and unknown types. *)
Definition is_session_event (ev : event) : bool :=
  match ev with
  | EvDescribe | EvOther _ => false
  | _ => true
  end.

(** * Properties *)

Open Scope nat_scope.
Open Scope string_scope.

(** ** Helper lemmas *)

Lemma str_app_assoc (a b c : string) : (a ++ b) ++ c = a ++ (b ++ c).
Proof. induction a as [|x a IH]; simpl; [reflexivity | now rewrite IH]. Qed.

Lemma str_app_empty_r (a : string) : a ++ EmptyString = a.
Proof. induction a as [|x a IH]; simpl; [reflexivity | now rewrite IH]. Qed.

Lemma prefix_app (n s : string) : prefix n (n ++ s) = true.
Proof.
  induction n as [|a n IH]; simpl.
  - destruct s; reflexivity.
  - destruct (ascii_dec a a) as [_|C]; [exact IH | now contradiction C].
Qed.

Lemma str_containsb_complete (n h : string) :
  str_contains n h -> str_containsb n h = true.
Proof.
  intros (p & s & ->). induction p as [|a p IH].
  - simpl append.
    assert (U : forall h, str_containsb n h = prefix n h ||
              match h with EmptyString => false | String _ h' => str_containsb n h' end)
      by (intros []; reflexivity).
    rewrite U, prefix_app. reflexivity.
  - simpl. rewrite IH. apply orb_true_r.
Qed.

Lemma str_contains_concat (sep x : string) (l : list string) :
  In x l -> str_contains x (String.concat sep l).
Proof.
  induction l as [|y l IH]; simpl; [intros []|].
  intros [->|Hin].
  - destruct l; [exists EmptyString, EmptyString; simpl|].
    + now rewrite str_app_empty_r.
    + exists EmptyString; eexists; reflexivity.
  - destruct l as [|z l]; [destruct Hin|].
    destruct (IH Hin) as (p & s & Hps).
    exists (y ++ sep ++ p), s. rewrite Hps, !str_app_assoc. reflexivity.
Qed.

Lemma sf_read_ok (w : wav_writer) :
  sf_open_ok w = true -> sf_read w = inr (sf_decode w).
Proof. intros H. unfold sf_read. rewrite H. reflexivity. Qed.

Lemma sf_read_fail (w : wav_writer) :
  sf_open_ok w = false -> sf_read w = inl SoundFileError.
Proof. intros H. unfold sf_read. rewrite H. reflexivity. Qed.

(** What an [AudioStop] does with an open buffer that libsndfile opens, on
    all three paths: the buffer is closed, one transcript is written, the
    lock is released, and [False] is returned. *)
Lemma stop_with_buffer (st : handler) (w : wav_writer) :
  wav_file st = Some w -> sf_open_ok w = true ->
  exists st' fx,
    handle_audio_stop st = Returned st' fx false /\
    wav_file st' = None /\
    transcripts_written fx = 1 /\
    lock_trace_ok false fx = true.
Proof.
  intros Hw Ho. unfold handle_audio_stop. rewrite Hw, (sf_read_ok w Ho).
  cbv beta iota. change (to_mono (sf_decode w)) with (read_mono w).
  destruct (read_mono w) as [wf sr]. simpl.
  destruct (select_model (models st) _) as [[t m]|].
  - destruct (recognize m wf _ sr) as [e|text]; do 2 eexists;
      repeat split; reflexivity.
  - do 2 eexists; repeat split; reflexivity.
Qed.

(** An open buffer libsndfile refuses: [sf.read] raises after the buffer was
    closed, and nothing but the debug line is emitted. *)
Lemma stop_unreadable (st : handler) (w : wav_writer) :
  wav_file st = Some w -> sf_open_ok w = false ->
  handle_audio_stop st = Raised [stop_log st] SoundFileError.
Proof.
  intros Hw Ho. unfold handle_audio_stop. rewrite Hw, (sf_read_fail w Ho). reflexivity.
Qed.

(** [handle_event] on [AudioStop] never returns [True]. *)
Lemma stop_never_continues (st st' : handler) (fx : list effect) :
  handle_event st EvAudioStop <> Returned st' fx true.
Proof.
  unfold handle_event, handle_audio_stop.
  destruct (wav_file st) as [w|]; [|discriminate].
  destruct (sf_read w) as [e|arr]; [discriminate|].
  destruct (to_mono arr) as [wf sr]. cbv beta iota.
  destruct (select_model _ _) as [[t m]|]; [|discriminate].
  destruct (recognize m wf _ sr); discriminate.
Qed.

(** ** C9: an [AudioStop] with no open buffer *)

(** C9: when no buffer is open, [handle_event] on [AudioStop] fails the
    assertion [self._wav_file is not None]: it raises, having written no
    transcript, and the session loop ends with that exception. *)
Theorem stop_without_buffer_raises (st : handler) (rest : list event) :
  wav_file st = None ->
  handle_event st EvAudioStop = Raised [stop_log st] AssertionError /\
  run st (EvAudioStop :: rest) = ([stop_log st], Crashed AssertionError) /\
  transcripts_written (fst (run st (EvAudioStop :: rest))) = 0.
Proof.
  intros Hw.
  assert (E : handle_event st EvAudioStop = Raised [stop_log st] AssertionError)
    by (unfold handle_event, handle_audio_stop; rewrite Hw; reflexivity).
  cbn [run]. rewrite E. repeat split.
Qed.

Lemma stop_without_buffer_raises_witness :
  wav_file (new_handler [("en", text_adapter "hello")] None) = None /\
  transcripts_written
    (fst (run (new_handler [("en", text_adapter "hello")] None) [EvAudioStop])) = 0.
Proof.
  split; [reflexivity|].
  apply (stop_without_buffer_raises (new_handler [("en", text_adapter "hello")] None) []).
  reflexivity.
Defined.

(** ** C1: the pending language after an utterance *)

(** C1: whatever way an [AudioStop] ends (success, resolution failure,
    recognizer failure, or an exception), the handler processes no later
    event: the events after it do not change what the session does, and the
    loop never stays open. A later utterance is served by a new handler,
    whose pending language is unset, so it resolves with the default
    ["en"]. *)
Theorem pending_language_after_stop (st : handler) (rest : list event) :
  run st (EvAudioStop :: rest) = run st [EvAudioStop] /\
  (forall st', snd (run st (EvAudioStop :: rest)) <> Open st') /\
  (forall ms p, request_language (new_handler ms p) = None /\
                stop_language (new_handler ms p) = "en").
Proof.
  pose proof (stop_never_continues st) as Hn.
  assert (E : run st (EvAudioStop :: rest) = run st [EvAudioStop]).
  { cbn [run]. destruct (handle_event st EvAudioStop) as [fx e|st' fx [|]];
      [reflexivity | now destruct (Hn st' fx) | reflexivity]. }
  split; [exact E|]. split.
  - intros st'. cbn [run].
    destruct (handle_event st EvAudioStop) as [fx e|st1 fx [|]]; simpl;
      [discriminate | now destruct (Hn st1 fx) | discriminate].
  - intros ms p. split; reflexivity.
Qed.

(** ** C6: what happens to the connection after an utterance *)

(** C6 (counterexample): after the diagnostic transcript of a recognizer
    failure, [handle_event] returns [False], the Wyoming signal to stop
    reading events and close the connection; a second utterance sent on the
    same connection is never handled. *)
Lemma failure_closes_connection :
  match handle_event (example_session [("multi", failing_adapter "boom")] None)
          EvAudioStop with
  | Returned _ _ keep_going => keep_going
  | Raised _ _ => true
  end = false /\
  transcripts_written
    (fst (run (example_session [("multi", failing_adapter "boom")] None)
              [EvAudioStop; EvAudioChunk example_chunk; EvAudioStop])) = 1.
Proof. vm_compute. split; reflexivity. Qed.

(** C6 (amended): an [AudioStop] with an open buffer that libsndfile opens
    writes exactly one transcript (the recognized text or a diagnostic) and
    then ends the session, whatever the outcome: the events that follow on
    the connection are not processed. When libsndfile refuses the file,
    [sf.read] raises and the session ends with that exception, without a
    transcript. *)
Theorem stop_ends_connection (st : handler) (w : wav_writer) (rest : list event) :
  wav_file st = Some w ->
  (sf_open_ok w = true ->
   exists fx st',
     run st (EvAudioStop :: rest) = (fx, Closed st') /\
     transcripts_written fx = 1 /\
     wav_file st' = None) /\
  (sf_open_ok w = false ->
   run st (EvAudioStop :: rest) = ([stop_log st], Crashed SoundFileError)).
Proof.
  intros Hw. split.
  - intros Ho. destruct (stop_with_buffer st w Hw Ho) as (st' & fx & Hs & Hn & Ht & _).
    exists fx, st'. simpl. rewrite Hs. auto.
  - intros Ho. simpl. rewrite (stop_unreadable st w Hw Ho). reflexivity.
Qed.

Lemma stop_ends_connection_witness :
  wav_file (example_session [("multi", failing_adapter "boom")] None)
    = Some example_buffer /\
  exists fx st',
    run (example_session [("multi", failing_adapter "boom")] None)
      [EvAudioStop; EvAudioChunk example_chunk; EvAudioStop] = (fx, Closed st') /\
    transcripts_written fx = 1.
Proof.
  split; [reflexivity|].
  destruct (stop_ends_connection
              (example_session [("multi", failing_adapter "boom")] None)
              example_buffer
              [EvAudioChunk example_chunk; EvAudioStop] eq_refl) as [Hok _].
  destruct (Hok eq_refl) as (fx & st' & H1 & H2 & _).
  exists fx, st'. split; assumption.
Defined.

(** ** C2: backend selection *)

(** C2 (counterexample): with backends [{"nl", "multi"}] and pending
    language ["nl"], the exact entry ["nl"] is not used: [select_model]
    picks ["multi"]. *)
Lemma exact_entry_not_preferred :
  dict_contains "nl" [("nl", text_adapter "nl text"); ("multi", text_adapter "multi text")]
    = true /\
  option_map fst
    (select_model [("nl", text_adapter "nl text"); ("multi", text_adapter "multi text")]
       (py_or_str (Some "nl") "en")) = Some "multi".
Proof. vm_compute. split; reflexivity. Qed.

(** C2 (amended): the effective language is the pending language when it
    is set and non-empty, else ["en"]. Only the keys ["en"] and ["multi"] are
    ever looked up: for ["en"], the ["en"] entry, else ["multi"]; for any
    other language, the ["multi"] entry, else ["en"]; resolution fails
    exactly when neither entry exists. *)
Theorem select_model_rule (ms : model_dict) (rl : option string) :
  let lang := py_or_str rl "en" in
  lang = match rl with
         | Some l => if String.eqb l "" then "en" else l
         | None => "en"
         end /\
  (forall t m, select_model ms lang = Some (t, m) ->
     (t = "en" \/ t = "multi") /\ dict_get t ms = Some m) /\
  (select_model ms lang = None <->
     dict_get "en" ms = None /\ dict_get "multi" ms = None) /\
  (lang = "en" -> forall m, dict_get "en" ms = Some m ->
     select_model ms lang = Some ("en", m)) /\
  (lang = "en" -> dict_get "en" ms = None -> forall m, dict_get "multi" ms = Some m ->
     select_model ms lang = Some ("multi", m)) /\
  (lang <> "en" -> forall m, dict_get "multi" ms = Some m ->
     select_model ms lang = Some ("multi", m)) /\
  (lang <> "en" -> dict_get "multi" ms = None -> forall m, dict_get "en" ms = Some m ->
     select_model ms lang = Some ("en", m)).
Proof.
  intros lang. split.
  { unfold lang, py_or_str, py_truthy_str. destruct rl as [[|c s]|]; reflexivity. }
  unfold select_model, dict_contains.
  destruct (String.eqb lang "en") eqn:El;
    [apply String.eqb_eq in El | apply String.eqb_neq in El];
    destruct (dict_get "en" ms) as [me|] eqn:He;
    destruct (dict_get "multi" ms) as [mm|] eqn:Hm; simpl;
    repeat split; intros; try congruence;
    match goal with
    | H : Some (_, _) = Some (_, _) |- _ => injection H as <- <-; auto
    | H : None = Some _ |- _ => discriminate H
    | _ => idtac
    end;
    try (destruct H as [H1 H2]; congruence).
Qed.

(** ** C4: resolution failure *)

(** C4 (counterexample): with only a ["nl"] backend and no pending
    language, the resolution failure is reported as
    ["ERROR: No ASR model is available for transcription"], which names
    neither the unavailable language ["en"] nor the available tag ["nl"]. *)
Lemma resolution_failure_without_language :
  written (match handle_event (example_session [("nl", text_adapter "x")] None)
                   EvAudioStop with
           | Returned _ fx _ => fx
           | Raised fx _ => fx
           end)
    = [Transcript "ERROR: No ASR model is available for transcription"] /\
  ~ str_contains "nl" "ERROR: No ASR model is available for transcription".
Proof.
  split; [vm_compute; reflexivity|].
  intros H. apply str_containsb_complete in H. vm_compute in H. discriminate H.
Qed.

(** C4 (amended): on a resolution failure (reached once [sf.read] has read
    the buffer back) [handle_event] returns normally (it raises nothing)
    after writing one transcript ["ERROR: " ++ msg]. When
    a non-empty language was requested, [msg] contains that language and the
    [repr] of every available tag; otherwise it is
    ["No ASR model is available for transcription"]. *)
Theorem resolution_failure_reported (st : handler) (w : wav_writer) :
  wav_file st = Some w ->
  sf_open_ok w = true ->
  select_model (models st) (stop_language st) = None ->
  let text := "ERROR: " ++ resolution_error_msg st in
  handle_event st EvAudioStop
    = Returned (set_wav_file st None) [stop_log st; WriteEvent (Transcript text)] false /\
  (py_truthy_str (request_language st) = true ->
     str_contains (py_str_opt (request_language st)) text /\
     forall k, In k (dict_keys (models st)) -> str_contains (py_repr_str k) text) /\
  (py_truthy_str (request_language st) = false ->
     text = "ERROR: No ASR model is available for transcription").
Proof.
  intros Hw Ho Hs text. split; [|split].
  - unfold handle_event, handle_audio_stop. rewrite Hw, (sf_read_ok w Ho).
    cbv beta iota. change (to_mono (sf_decode w)) with (read_mono w).
    destruct (read_mono w) as [wf sr]. unfold stop_language in Hs. simpl.
    rewrite Hs. reflexivity.
  - intros Ht. unfold text, resolution_error_msg. rewrite Ht. split.
    + exists "ERROR: Language '",
        ("' is not supported. Available models: " ++ py_str_list (dict_keys (models st))).
      reflexivity.
    + intros k Hk.
      destruct (str_contains_concat ", " (py_repr_str k)
                  (map py_repr_str (dict_keys (models st))) (in_map _ _ _ Hk))
        as (p & s & Hps).
      exists ("ERROR: Language '" ++ py_str_opt (request_language st)
                ++ "' is not supported. Available models: " ++ "[" ++ p), (s ++ "]").
      unfold py_str_list. rewrite Hps. rewrite !str_app_assoc. reflexivity.
  - intros Hf. unfold text, resolution_error_msg. rewrite Hf. reflexivity.
Qed.

Lemma resolution_failure_reported_witness :
  wav_file (example_session [("nl", text_adapter "x")] (Some "de"))
    = Some example_buffer /\
  sf_open_ok example_buffer = true /\
  select_model [("nl", text_adapter "x")] "de" = None /\
  written (match handle_event (example_session [("nl", text_adapter "x")] (Some "de"))
                   EvAudioStop with
           | Returned _ fx _ => fx
           | Raised fx _ => fx
           end)
    = [Transcript ("ERROR: " ++ resolution_error_msg
                     (example_session [("nl", text_adapter "x")] (Some "de")))].
Proof.
  split; [reflexivity|]. split; [reflexivity|]. split; [reflexivity|].
  destruct (resolution_failure_reported
              (example_session [("nl", text_adapter "x")] (Some "de"))
              example_buffer
              eq_refl eq_refl eq_refl) as [E _].
  rewrite E. reflexivity.
Defined.

(** ** C5: recognizer failure *)

(** C5: when [recognize] raises, [handle_event] returns normally (no
    exception escapes) after writing the transcript
    ["ERROR: Transcription failed: " ++ str(e)] inside the lock, and then
    releases the lock. On every path of an [AudioStop] with an open buffer
    that [sf.read] reads back, the lock is free again when [handle_event]
    returns. *)
Theorem recognizer_failure_reported (st : handler) (w : wav_writer)
    (t : string) (m : asr_adapter) (e : string) :
  wav_file st = Some w ->
  sf_open_ok w = true ->
  select_model (models st) (stop_language st) = Some (t, m) ->
  recognize m (fst (read_mono w)) (stop_language st) (snd (read_mono w)) = inl e ->
  handle_event st EvAudioStop
    = Returned (set_wav_file st None)
        [stop_log st; LockAcquire;
         CallRecognize t (fst (read_mono w)) (stop_language st) (snd (read_mono w));
         WriteEvent (Transcript ("ERROR: Transcription failed: " ++ e));
         LockRelease] false /\
  (forall st2 w2, wav_file st2 = Some w2 -> sf_open_ok w2 = true ->
     exists st' fx, handle_event st2 EvAudioStop = Returned st' fx false /\
                    lock_trace_ok false fx = true).
Proof.
  intros Hw Ho Hs Hr. split.
  - unfold handle_event, handle_audio_stop. rewrite Hw, (sf_read_ok w Ho).
    cbv beta iota. change (to_mono (sf_decode w)) with (read_mono w).
    unfold stop_language in *. destruct (read_mono w) as [wf sr]. simpl in *.
    rewrite Hs, Hr. reflexivity.
  - intros st2 w2 Hw2 Ho2.
    destruct (stop_with_buffer st2 w2 Hw2 Ho2) as (st' & fx & Hs2 & _ & _ & Hl).
    exists st', fx. split; assumption.
Qed.

Lemma recognizer_failure_reported_witness :
  written (match handle_event (example_session [("multi", failing_adapter "boom")] (Some "nl"))
                   EvAudioStop with
           | Returned _ fx _ => fx
           | Raised fx _ => fx
           end)
    = [Transcript "ERROR: Transcription failed: boom"].
Proof.
  destruct (recognizer_failure_reported
              (example_session [("multi", failing_adapter "boom")] (Some "nl"))
              example_buffer
              "multi" (failing_adapter "boom") "boom"
              eq_refl eq_refl eq_refl eq_refl) as [E _].
  rewrite E. reflexivity.
Defined.

(** ** C3: one response per utterance *)


Lemma run_cons_silent (st st' : handler) (ev : event) (evs : list event) :
  handle_event st ev = Returned st' [] true -> run st (ev :: evs) = run st' evs.
Proof.
  intros H. cbn [run]. rewrite H. destruct (run st' evs); reflexivity.
Qed.







(** ** C8: finalizing the buffer *)













(** ** C10: [initial_prompt] does not influence the output *)

Lemma written_app (a b : list effect) : written (a ++ b)%list = (written a ++ written b)%list.
Proof. unfold written. apply flat_map_app. Qed.

(** One event from two states that differ only in [initial_prompt]: the
    same outcome, the same written events, states that still differ only
    in [initial_prompt]. *)
Lemma handle_event_with_prompt (st : handler) (p : option string) (ev : event) :
  match handle_event (with_prompt st p) ev, handle_event st ev with
  | Raised fx e, Raised fx0 e0 => written fx = written fx0 /\ e = e0
  | Returned st' fx k, Returned st0 fx0 k0 =>
      st' = with_prompt st0 p /\ written fx = written fx0 /\ k = k0
  | _, _ => False
  end.
Proof.
  destruct st as [ms pr rl wf]. unfold with_prompt. simpl.
  destruct ev as [c| |l| |ty]; simpl; auto.
  - unfold handle_audio_chunk. simpl. destruct wf as [w|]; simpl.
    + destruct (writeframes w _); simpl; auto.
    + destruct (wave_open _ _ _) as [e|w]; simpl; auto.
      destruct (writeframes_first w _); simpl; auto.
  - unfold handle_audio_stop. simpl. destruct wf as [w|]; simpl; auto.
    destruct (sf_read w) as [e|arr]; simpl; auto.
    destruct (to_mono arr) as [wv sr].
    destruct (select_model ms _) as [[t m]|]; simpl; auto.
    destruct (recognize m wv _ sr); simpl; auto.
Qed.

(** C10: two sessions that differ only in [initial_prompt] write the same
    events to the client for every sequence of inbound events: the prompt
    only reaches a debug log line, never [recognize] or a transcript. *)
Theorem initial_prompt_no_effect (st : handler) (p1 p2 : option string)
    (evs : list event) :
  written (fst (run (with_prompt st p1) evs)) = written (fst (run (with_prompt st p2) evs)).
Proof.
  revert st. induction evs as [|ev evs IH]; intros st; [reflexivity|].
  cbn [run].
  pose proof (handle_event_with_prompt st p1 ev) as H1.
  pose proof (handle_event_with_prompt st p2 ev) as H2.
  destruct (handle_event st ev) as [fx0 e0|st0 fx0 k0];
    destruct (handle_event (with_prompt st p1) ev) as [fx1 e1|st1 fx1 k1];
    destruct (handle_event (with_prompt st p2) ev) as [fx2 e2|st2 fx2 k2];
    try contradiction; simpl.
  - destruct H1 as [-> _]. destruct H2 as [-> _]. reflexivity.
  - destruct H1 as (-> & W1 & ->). destruct H2 as (-> & W2 & ->).
    destruct k0.
    + destruct (run (with_prompt st0 p1) evs) as [a ra] eqn:Ea.
      destruct (run (with_prompt st0 p2) evs) as [b rb] eqn:Eb.
      simpl. rewrite !written_app, W1, W2. f_equal.
      specialize (IH st0). rewrite Ea, Eb in IH. exact IH.
    + simpl. congruence.
Qed.

(** ** C7: sessions and the model lock *)

Module SessionsFacts.
Import Sessions.

Lemma lock_inv_init : lock_inv init.
Proof. split; simpl; [discriminate | discriminate]. Qed.

Lemma lock_inv_step (s s' : world) : lock_inv s -> step s s' -> lock_inv s'.
Proof.
  intros [Hown Hpc] Hst. destruct Hst as [s i tag Hi|s i tag Hi Hfree|s i tag Hi].
  - split; simpl.
    + intros j t Hj. unfold upd in Hj.
      destruct (Nat.eqb_spec j i); [discriminate|]. auto.
    + intros l j Hl. destruct (Hpc l j Hl) as (t & Ht & Hlt).
      exists t. unfold upd. destruct (Nat.eqb_spec j i); [congruence|]. auto.
  - split; simpl.
    + intros j t Hj. unfold upd in *.
      destruct (Nat.eqb_spec j i) as [->|Hji].
      * injection Hj as <-. rewrite Nat.eqb_refl. reflexivity.
      * specialize (Hown j t Hj).
        destruct (Nat.eqb_spec (lock_for t) (lock_for tag)); congruence.
    + intros l j Hl. unfold upd in *.
      destruct (Nat.eqb_spec l (lock_for tag)) as [->|Hl'].
      * injection Hl as <-. exists tag. rewrite Nat.eqb_refl. auto.
      * destruct (Hpc l j Hl) as (t & Ht & Hlt). exists t.
        destruct (Nat.eqb_spec j i); [congruence|]. auto.
  - pose proof (Hown i tag Hi) as Hoi.
    split; simpl.
    + intros j t Hj. unfold upd in *.
      destruct (Nat.eqb_spec j i); [discriminate|].
      specialize (Hown j t Hj).
      destruct (Nat.eqb_spec (lock_for t) (lock_for tag)); congruence.
    + intros l j Hl. unfold upd in *.
      destruct (Nat.eqb_spec l (lock_for tag)) as [->|Hl']; [discriminate|].
      destruct (Hpc l j Hl) as (t & Ht & Hlt). exists t.
      destruct (Nat.eqb_spec j i) as [->|]; [|auto].
      rewrite Hi in Ht. injection Ht as <-. congruence.
Qed.

Lemma lock_inv_reachable (s : world) : reachable s -> lock_inv s.
Proof.
  induction 1; [apply lock_inv_init | eapply lock_inv_step; eauto].
Qed.

(** C7 (counterexample): no reachable interleaving has two sessions
    inside [recognize] at once on two different backend tags: the backends
    share one lock, so sessions on different backends do wait for each
    other. *)
Lemma different_backends_serialized :
  ~ exists s i j t1 t2,
      reachable s /\ i <> j /\ t1 <> t2 /\
      pcs s i = Recognizing t1 /\ pcs s j = Recognizing t2.
Proof.
  intros (s & i & j & t1 & t2 & Hr & Hij & _ & Hi & Hj).
  destruct (lock_inv_reachable s Hr) as [Hown _].
  pose proof (Hown i t1 Hi) as E1. pose proof (Hown j t2 Hj) as E2.
  unfold lock_for in *. congruence.
Qed.

(** C7 (amended): in every reachable interleaving at most one session is
    inside [recognize], whatever backends the sessions selected: two sessions
    on the same backend never run it concurrently, and neither do two
    sessions on different backends. *)
Theorem recognize_single_flight (s : world) (i j : nat) (t1 t2 : string) :
  reachable s -> pcs s i = Recognizing t1 -> pcs s j = Recognizing t2 -> i = j.
Proof.
  intros Hr Hi Hj. destruct (lock_inv_reachable s Hr) as [Hown _].
  pose proof (Hown i t1 Hi) as E1. pose proof (Hown j t2 Hj) as E2.
  unfold lock_for in *. congruence.
Qed.

Lemma recognize_single_flight_witness :
  reachable one_inside /\ pcs one_inside 0 = Recognizing "en" /\ 0 = 0.
Proof.
  assert (R : reachable one_inside).
  { eapply reach_step; [eapply reach_step; [apply reach_init|]|].
    - apply (step_select init 0 "en"). reflexivity.
    - apply (step_acquire (mkWorld (upd (pcs init) 0 (Waiting "en")) (owner init)) 0 "en");
        reflexivity. }
  split; [exact R|]. split; [reflexivity|].
  exact (recognize_single_flight one_inside 0 0 "en" "en" R eq_refl eq_refl).
Defined.

End SessionsFacts.

(** * Further properties of the code *)

Open Scope nat_scope.
Open Scope string_scope.

(** ** Startup ([main] of [wyoming_onnx_asr/__main__.py]) *)




(** ** Event order and buffering ([handle_event]) *)

(** X5: a [Transcribe] and an [AudioChunk] commute: the requested language
    and the audio buffer are independent parts of the session state. *)
Theorem transcribe_chunk_commute (st : handler) (l : option string)
    (c : audio_chunk) (rest : list event) :
  run st (EvTranscribe l :: EvAudioChunk c :: rest)
  = run st (EvAudioChunk c :: EvTranscribe l :: rest).
Proof.
  destruct st as [ms ip rl wf]. cbn [run handle_event].
  unfold handle_audio_chunk. simpl.
  destruct wf as [w|].
  - destruct (writeframes w _) as [e|w']; [reflexivity|].
    cbn [run handle_event]. simpl.
    destruct (run _ rest); reflexivity.
  - destruct (wave_open _ _ _) as [e|w]; [reflexivity|].
    destruct (writeframes_first w _) as [e|w']; [reflexivity|].
    cbn [run handle_event]. simpl. destruct (run _ rest); reflexivity.
Qed.

Lemma written_info (fx : list effect) :
  filter is_transcript (written (WriteEvent InfoEvent :: fx))
  = filter is_transcript (written fx).
Proof. reflexivity. Qed.

(** X6: [Describe] and events of unknown type are transparent to the
    transcription protocol: removing them from the input changes neither the
    transcripts written nor how the session ends. *)
Theorem non_session_events_transparent (st : handler) (evs : list event) :
  filter is_transcript (written (fst (run st evs)))
    = filter is_transcript (written (fst (run st (filter is_session_event evs)))) /\
  snd (run st evs) = snd (run st (filter is_session_event evs)).
Proof.
  revert st. induction evs as [|ev evs IH]; intros st; [split; reflexivity|].
  destruct ev as [c| |l| |t]; cbn [filter is_session_event].
  - cbn [run]. destruct (handle_event st (EvAudioChunk c)) as [fx e|st' fx []];
      try (split; reflexivity).
    specialize (IH st').
    destruct (run st' evs) as [fx1 r1], (run st' (filter is_session_event evs)) as [fx2 r2].
    simpl in IH |- *. rewrite !written_app, !filter_app.
    destruct IH as [-> ->]. split; reflexivity.
  - cbn [run]. destruct (handle_event st EvAudioStop) as [fx e|st' fx []];
      try (split; reflexivity).
    specialize (IH st').
    destruct (run st' evs) as [fx1 r1], (run st' (filter is_session_event evs)) as [fx2 r2].
    simpl in IH |- *. rewrite !written_app, !filter_app.
    destruct IH as [-> ->]. split; reflexivity.
  - cbn [run handle_event].
    specialize (IH (set_request_language st l)).
    destruct (run _ evs) as [fx1 r1], (run _ (filter is_session_event evs)) as [fx2 r2].
    simpl in IH |- *. exact IH.
  - cbn [run handle_event]. specialize (IH st).
    destruct (run st evs) as [fx1 r1]. simpl in IH |- *. exact IH.
  - cbn [run handle_event]. specialize (IH st).
    destruct (run st evs) as [fx1 r1]. simpl in IH |- *. exact IH.
Qed.

Lemma wav_append_app (w : wav_writer) (a b : list Z) :
  wav_append (wav_append w a) b = wav_append w (a ++ b)%list.
Proof. unfold wav_append. simpl. rewrite app_assoc. reflexivity. Qed.

Lemma wav_append_nil (w : wav_writer) : wav_append w [] = w.
Proof. destruct w. unfold wav_append. simpl. rewrite app_nil_r. reflexivity. Qed.

Lemma patch_ok_small (n : Z) : (0 <= n)%Z -> (36 + n < 2 ^ 32)%Z -> patch_ok n = true.
Proof.
  intros H0 H1. unfold patch_ok, u32_ok.
  repeat rewrite andb_true_iff. rewrite !Z.leb_le, !Z.ltb_lt. lia.
Qed.

(** A later [writeframes] succeeds while the file stays under 4 GiB. *)
Lemma writeframes_small (w : wav_writer) (a : list Z) :
  (36 + Z.of_nat (length (ww_data w ++ a)) < 2 ^ 32)%Z ->
  writeframes w a = inr (wav_append w a).
Proof.
  intros H. unfold writeframes.
  destruct (_ =? _)%Z; [reflexivity|].
  rewrite patch_ok_small by lia. reflexivity.
Qed.

Lemma set_wav_file_same (st : handler) (w : wav_writer) :
  wav_file st = Some w -> set_wav_file st (Some w) = st.
Proof. destruct st. simpl. intros ->. reflexivity. Qed.

Lemma run_chunks_append (st : handler) (w : wav_writer)
    (cs : list audio_chunk) (rest : list event) :
  wav_file st = Some w ->
  (36 + Z.of_nat (length (ww_data w ++ concat (map chunk_audio cs))) < 2 ^ 32)%Z ->
  run st (map EvAudioChunk cs ++ rest)%list
  = run (set_wav_file st (Some (wav_append w (concat (map chunk_audio cs))))) rest.
Proof.
  revert st w. induction cs as [|c cs IH]; intros st w Hw Hs.
  - simpl. rewrite wav_append_nil, set_wav_file_same by exact Hw. reflexivity.
  - simpl map in *. rewrite <- app_comm_cons. cbn [concat] in Hs.
    assert (L : length (ww_data w ++ chunk_audio c)
                <= length (ww_data w ++ chunk_audio c ++ concat (map chunk_audio cs)))
      by (rewrite !length_app; lia).
    rewrite (run_cons_silent st (set_wav_file st (Some (wav_append w (chunk_audio c)))))
      by (cbn [handle_event]; unfold handle_audio_chunk; rewrite Hw;
          rewrite writeframes_small by lia; reflexivity).
    rewrite (IH _ (wav_append w (chunk_audio c))).
    + destruct st. simpl. rewrite wav_append_app. reflexivity.
    + reflexivity.
    + destruct w. simpl in *. rewrite <- app_assoc. exact Hs.
Qed.

(** X7: while a buffer is open and the file stays under the 4 GiB limit of
    the WAV header, a run of chunks only appends their audio to it, in
    order, and writes nothing; the rate, width and channels of the later
    chunks are ignored (the buffer keeps the format of the chunk that opened
    it). *)
Theorem chunks_accumulate (st : handler) (rate width channels : Z)
    (data : list Z) (cs : list audio_chunk) (rest : list event) :
  wav_file st = Some (mkWav rate width channels data) ->
  (36 + Z.of_nat (length (data ++ concat (map chunk_audio cs))) < 2 ^ 32)%Z ->
  run st (map EvAudioChunk cs ++ rest)%list
  = run (set_wav_file st (Some (mkWav rate width channels
                                  (data ++ concat (map chunk_audio cs))%list))) rest.
Proof.
  intros Hw Hs. rewrite (run_chunks_append st _ cs rest Hw Hs). reflexivity.
Qed.

Lemma chunks_accumulate_witness :
  wav_file (example_session [] None)
    = Some (mkWav 16000 2 1 [0; 1; 0; 2]%Z) /\
  (36 + Z.of_nat (length ([0; 1; 0; 2]%Z ++ concat (map chunk_audio
          [mkChunk 8000 1 2 [5; 6]%Z; mkChunk 0 7 0 [7]%Z]))) < 2 ^ 32)%Z /\
  run (example_session [] None)
      (map EvAudioChunk [mkChunk 8000 1 2 [5; 6]%Z; mkChunk 0 7 0 [7]%Z] ++ [])%list
  = run (set_wav_file (example_session [] None)
           (Some (mkWav 16000 2 1 [0; 1; 0; 2; 5; 6; 7]%Z))) [].
Proof.
  split; [reflexivity|]. split; [vm_compute; reflexivity|].
  exact (chunks_accumulate (example_session [] None) 16000 2 1 [0; 1; 0; 2]%Z
           [mkChunk 8000 1 2 [5; 6]%Z; mkChunk 0 7 0 [7]%Z] [] eq_refl
           ltac:(vm_compute; reflexivity)).
Defined.

(** ** Decoding the buffer ([sf.read] and the mono down-mix) *)

Lemma chunks_aux_length_div (n : nat) : forall (fuel : nat) (l : list Z),
  0 < n -> length l <= fuel * n -> length (chunks_aux fuel n l) = length l / n.
Proof.
  intros fuel. induction fuel as [|fuel IH]; intros l Hn Hf; simpl.
  - symmetry. apply Nat.div_small. lia.
  - destruct (Nat.ltb (length l) n) eqn:E.
    + apply Nat.ltb_lt in E. symmetry. apply Nat.div_small. exact E.
    + apply Nat.ltb_ge in E. simpl.
      rewrite IH by (try rewrite length_skipn; lia).
      rewrite length_skipn.
      replace (length l) with (length l - n + 1 * n) at 2 by lia.
      rewrite Nat.div_add by lia. lia.
Qed.

Lemma chunks_length_div (n : nat) (l : list Z) :
  length (chunks n l) = length l / n.
Proof.
  unfold chunks. destruct (Nat.eqb n 0) eqn:E.
  - apply Nat.eqb_eq in E. subst n. reflexivity.
  - apply Nat.eqb_neq in E. apply chunks_aux_length_div; nia.
Qed.

(** X8: the waveform handed to the recognizer has one sample per whole frame
    of the buffer: [len(data) // (sampwidth * nchannels)]; an incomplete
    trailing frame is dropped (and a zero frame size gives no samples). *)
Theorem read_mono_length (w : wav_writer) :
  length (fst (read_mono w))
  = length (ww_data w) / Z.to_nat (ww_width w * ww_channels w).
Proof.
  unfold read_mono, sf_decode.
  destruct (ww_channels w =? 1)%Z; simpl;
    rewrite length_map; unfold wav_frames; rewrite length_map;
    apply chunks_length_div.
Qed.

(** ** The client tools against a server session *)

Lemma concat_split_blocks_aux (n : nat) : forall (fuel : nat) (l : list Z),
  0 < n -> length l <= fuel -> concat (split_blocks_aux fuel n l) = l.
Proof.
  intros fuel. induction fuel as [|fuel IH]; intros l Hn Hf.
  - destruct l; [reflexivity | simpl in Hf; lia].
  - destruct l as [|x l']; [reflexivity|].
    change (concat (split_blocks_aux (S fuel) n (x :: l')))
      with (firstn n (x :: l') ++ concat (split_blocks_aux fuel n (skipn n (x :: l'))))%list.
    rewrite IH by (try rewrite length_skipn; cbn [length] in *; lia).
    apply firstn_skipn.
Qed.

Lemma concat_split_blocks (n : nat) (l : list Z) :
  0 < n -> concat (split_blocks n l) = l.
Proof. intros Hn. apply concat_split_blocks_aux; [exact Hn | lia]. Qed.

Lemma wave_open_ok (rate width channels : Z) :
  (0 < rate)%Z -> (1 <= width <= 4)%Z -> (1 <= channels)%Z ->
  wave_open rate width channels = inr (mkWav rate width channels []).
Proof.
  intros Hr Hw Hc. unfold wave_open.
  replace (rate <=? 0)%Z with false by (symmetry; apply Z.leb_gt; lia).
  replace (width <? 1)%Z with false by (symmetry; apply Z.ltb_ge; lia).
  replace (4 <? width)%Z with false by (symmetry; apply Z.ltb_ge; lia).
  replace (channels <? 1)%Z with false by (symmetry; apply Z.ltb_ge; lia).
  reflexivity.
Qed.

(** The first [writeframes] of a fresh writer succeeds when the format
    fields fit the header and the file stays under 4 GiB. *)
Lemma writeframes_first_ok (w : wav_writer) (a : list Z) :
  header_fields_ok (ww_rate w) (ww_width w) (ww_channels w) = true ->
  (1 <= ww_channels w * ww_width w)%Z ->
  (36 + Z.of_nat (length a) < 2 ^ 32)%Z ->
  writeframes_first w a = inr (wav_append w a).
Proof.
  intros Hf Hb Hs. unfold writeframes_first.
  set (n := Z.of_nat (length a)). set (ba := (ww_channels w * ww_width w)%Z).
  assert (D0 : (0 <= n / ba * ba)%Z)
    by (apply Z.mul_nonneg_nonneg; [apply Z.div_pos|]; lia).
  assert (D1 : (n / ba * ba <= n)%Z)
    by (rewrite Z.mul_comm; apply Z.mul_div_le; lia).
  assert (H : header_ok (ww_rate w) (ww_width w) (ww_channels w) (n / ba * ba) = true).
  { unfold header_ok. rewrite Hf. unfold u32_ok.
    repeat rewrite andb_true_iff. rewrite !Z.leb_le, !Z.ltb_lt. lia. }
  rewrite H. simpl negb. cbv iota.
  destruct (_ =? _)%Z; [reflexivity|].
  rewrite patch_ok_small by lia. reflexivity.
Qed.

(** The client's file as the server buffers it: its format is accepted
    and it fits the WAV header. *)
Definition client_wav_ok (w : wav_writer) : Prop :=
  (0 < ww_rate w)%Z /\ (1 <= ww_width w <= 4)%Z /\ (1 <= ww_channels w)%Z /\
  header_fields_ok (ww_rate w) (ww_width w) (ww_channels w) = true /\
  (36 + Z.of_nat (length (ww_data w)) < 2 ^ 32)%Z.

(** What the client sends amounts, on the server, to the requested language
    and a buffer holding exactly the client's file, followed by [AudioStop]. *)
Lemma client_session (ms : model_dict) (prompt language : option string)
    (w : wav_writer) :
  client_wav_ok w ->
  ww_data w <> [] ->
  run (new_handler ms prompt) (client_events language w)
  = run (mkHandler ms prompt language (Some w)) [EvAudioStop].
Proof.
  intros (Hr & Hw & Hc & Hf & Hs) Hd. destruct w as [r wd ch data].
  cbn [ww_rate ww_width ww_channels ww_data] in Hr, Hw, Hc, Hf, Hs, Hd.
  unfold client_events.
  rewrite (run_cons_silent _ (mkHandler ms prompt language None)) by reflexivity.
  rewrite (run_cons_silent _ (mkHandler ms prompt language None)) by reflexivity.
  unfold wav_to_chunks. simpl ww_rate; simpl ww_width; simpl ww_channels; simpl ww_data.
  assert (Hn : 0 < SAMPLES_PER_CHUNK * Z.to_nat (wd * ch)).
  { unfold SAMPLES_PER_CHUNK. assert (0 < Z.to_nat (wd * ch)) by lia. lia. }
  pose proof (concat_split_blocks _ data Hn) as Hcat.
  destruct (split_blocks (SAMPLES_PER_CHUNK * Z.to_nat (wd * ch)) data) as [|b bs].
  - simpl in Hcat. subst data. contradiction Hd. reflexivity.
  - cbn [map]. rewrite <- app_comm_cons. simpl concat in Hcat.
    assert (Lb : length b <= length data) by (rewrite <- Hcat, length_app; lia).
    rewrite (run_cons_silent _ (mkHandler ms prompt language (Some (mkWav r wd ch b))))
      by (cbn [handle_event]; unfold handle_audio_chunk; simpl;
          rewrite wave_open_ok by lia;
          rewrite writeframes_first_ok
            by (cbn [ww_rate ww_width ww_channels]; first [exact Hf | nia | lia]);
          reflexivity).
    rewrite (run_chunks_append _ (mkWav r wd ch b)).
    + rewrite map_map. simpl chunk_audio. rewrite map_id.
      unfold wav_append. simpl. rewrite Hcat. reflexivity.
    + reflexivity.
    + rewrite map_map. simpl chunk_audio. rewrite map_id. simpl. rewrite Hcat. exact Hs.
Qed.

(** X10: [transcribe_wav] of [asr_client.py] on a non-empty file whose format
    the wave writer accepts, that fits the WAV header and that libsndfile
    reads back, always receives a transcription (never ["No transcription
    received"]); when the model selected for the requested language (["en"]
    when none) recognizes the file's mono waveform at the file's rate, that
    text is what the client returns. *)
Theorem client_round_trip (ms : model_dict) (prompt language : option string)
    (w : wav_writer) :
  client_wav_ok w ->
  sf_open_ok w = true ->
  ww_data w <> [] ->
  exists text, transcribe_wav ms prompt language w = inr text /\
    forall tag m t,
      select_model ms (py_or_str language "en") = Some (tag, m) ->
      recognize m (fst (read_mono w)) (py_or_str language "en") (snd (read_mono w))
        = inr t ->
      text = t.
Proof.
  intros Hok Ho Hd. unfold transcribe_wav.
  rewrite client_session by assumption.
  cbn [run handle_event]. unfold handle_audio_stop. cbn [wav_file].
  rewrite (sf_read_ok w Ho). cbv beta iota.
  change (to_mono (sf_decode w)) with (read_mono w).
  destruct (read_mono w) as [wf sr]. simpl.
  destruct (select_model ms (py_or_str language "en")) as [[tag m]|].
  - destruct (recognize m wf (py_or_str language "en") sr) as [e|t] eqn:Er;
      simpl; eexists; split; try reflexivity;
      intros tag' m' t' Hs Ht; injection Hs as <- <-; congruence.
  - simpl. eexists; split; [reflexivity | intros ? ? ? Hs; discriminate Hs].
Qed.

Lemma client_round_trip_witness :
  client_wav_ok (mkWav 16000 2 1 [0; 1; 0; 2]%Z) /\
  transcribe_wav [("en", text_adapter "hello")] None (Some "en")
    (mkWav 16000 2 1 [0; 1; 0; 2]%Z) = inr "hello".
Proof.
  assert (Hok : client_wav_ok (mkWav 16000 2 1 [0; 1; 0; 2]%Z)).
  { unfold client_wav_ok. simpl. repeat split; try lia. }
  split; [exact Hok|].
  destruct (client_round_trip [("en", text_adapter "hello")] None (Some "en")
              (mkWav 16000 2 1 [0; 1; 0; 2]%Z) Hok eq_refl) as (text & H1 & H2);
    [discriminate|].
  rewrite H1. f_equal. exact (H2 "en" (text_adapter "hello") "hello" eq_refl eq_refl).
Defined.

(** X11: for a file with no audio, the client sends no chunk, the server's
    [AudioStop] hits the [assert self._wav_file is not None] and the
    connection dies with [AssertionError]; the client then reports
    ["No transcription received"]. *)
Theorem client_empty_wav (ms : model_dict) (prompt language : option string)
    (w : wav_writer) :
  ww_data w = [] ->
  snd (run (new_handler ms prompt) (client_events language w)) = Crashed AssertionError /\
  transcribe_wav ms prompt language w = inl "No transcription received".
Proof.
  intros Hd. unfold transcribe_wav, client_events, wav_to_chunks, split_blocks.
  rewrite Hd. split; reflexivity.
Qed.

Lemma client_empty_wav_witness :
  transcribe_wav [("en", text_adapter "hello")] None None (mkWav 16000 2 1 [])
  = inl "No transcription received".
Proof.
  exact (proj2 (client_empty_wav [("en", text_adapter "hello")] None None
                  (mkWav 16000 2 1 []) eq_refl)).
Defined.

(** X12: the benchmark's [transcribe_wav] sends [Transcribe(name=model_name)]
    and hence no language: against any registry with an ["en"] backend it
    always runs that backend with language ["en"], whichever model name it
    asks for; the result is that backend's text for the file, or the error
    transcript. *)
Theorem benchmark_uses_english_model (ms : model_dict) (m1 : asr_adapter)
    (prompt : option string) (w : wav_writer) :
  dict_get "en" ms = Some m1 ->
  client_wav_ok w ->
  sf_open_ok w = true ->
  ww_data w <> [] ->
  transcribe_wav ms prompt None w
  = inr (match recognize m1 (fst (read_mono w)) "en" (snd (read_mono w)) with
         | inr text => text
         | inl e => "ERROR: " ++ ("Transcription failed: " ++ e)
         end).
Proof.
  intros He Hok Ho Hd.
  unfold transcribe_wav. rewrite client_session by assumption.
  cbn [run handle_event]. unfold handle_audio_stop. cbn [wav_file].
  rewrite (sf_read_ok w Ho). cbv beta iota.
  change (to_mono (sf_decode w)) with (read_mono w).
  destruct (read_mono w) as [wf sr]. simpl.
  unfold select_model, dict_contains. rewrite He. simpl.
  destruct (recognize m1 wf "en" sr); reflexivity.
Qed.

Lemma benchmark_uses_english_model_witness :
  client_wav_ok (mkWav 16000 2 1 [0; 1; 0; 2]%Z) /\
  transcribe_wav [("en", text_adapter "hello"); ("multi", text_adapter "hallo")] None None
    (mkWav 16000 2 1 [0; 1; 0; 2]%Z) = inr "hello".
Proof.
  assert (Hok : client_wav_ok (mkWav 16000 2 1 [0; 1; 0; 2]%Z)).
  { unfold client_wav_ok. simpl. repeat split; try lia. }
  split; [exact Hok|].
  exact (benchmark_uses_english_model
           [("en", text_adapter "hello"); ("multi", text_adapter "hallo")]
           (text_adapter "hello") None (mkWav 16000 2 1 [0; 1; 0; 2]%Z)
           eq_refl Hok eq_refl ltac:(discriminate)).
Defined.
